(** * Sparrownet: shell-stack terminal reducer, command engine and mailbox

    Shallow embedding of
    - the [gameState] reducer [terminal] (unnamed/part_004, second version),
    - the action creators of src/gamestate/terminalActions.js,
    - the command engine of src/gamestate/commandEngine.js,
    - the [mailbox] command-table builder (unnamed/part_001).

    Command tables are JS values indexed by command name; they are
    modelled as association lists of their own properties, listed in the
    property enumeration order (the order of [for ... in]).  An own
    property is a command entry [{func, description}] or, for the array
    [[]] the reducer starts with, its non-enumerable [length].  A handler
    ([func]) is a JS function run with [this] bound to the engine; its body
    is modelled as a [handler] program: it reads and changes the narrative
    data it closes over (the world [W], e.g. the mails object), calls the
    engine's [sendToOutput], [pushShell] and [popShell] (a call whose
    dispatch throws raises the exception in the handler), throws, and
    catches exceptions with [try]/[catch]. *)

From Stdlib Require Import List String Ascii Bool Arith Lia.
Import ListNotations.
Open Scope string_scope.

(** ** Strings *)

Definition crlf : string :=
  String (ascii_of_nat 13) (String (ascii_of_nat 10) EmptyString).

(** [s.split(' ')] *)
Fixpoint split_space (s : string) : list string :=
  match s with
  | EmptyString => [EmptyString]
  | String c rest =>
      if Ascii.eqb c " "%char then EmptyString :: split_space rest
      else match split_space rest with
           | [] => [String c EmptyString]
           | w :: ws => String c w :: ws
           end
  end.

(** [s.split(' ')[0]] *)
Definition first_token (s : string) : string :=
  hd EmptyString (split_space s).

(** Decimal rendering of a number, as ['' + n] does. *)
Fixpoint digits_aux (fuel n : nat) (acc : string) : string :=
  match fuel with
  | 0 => acc
  | S f =>
      let acc' := String (ascii_of_nat (48 + n mod 10)) acc in
      if Nat.ltb n 10 then acc' else digits_aux f (n / 10) acc'
  end.

Definition nat_to_string (n : nat) : string := digits_aux (S n) n EmptyString.

(** [(s + "                  ").slice(0, 12)]: 18 spaces appended, then the
    first 12 characters kept. *)
Definition spaces18 : string := "                  ".

Definition pad12 (s : string) : string := substring 0 12 (s ++ spaces18).

(** A reducer or handler may throw; the exception message is kept. *)
Inductive result (A : Type) : Type :=
  | Ok (a : A)
  | Err (e : string).
Arguments Ok {A} a.
Arguments Err {A} e.

(** ** Command tables, shell frames and the terminal state *)

Section Terminal.

Context {W : Type}.

(** An own property of a command table: a command entry, or the
    non-enumerable [length] of an array, a number with no [func] and no
    [description]. *)
Inductive entry : Type :=
  | Entry (func : string -> handler) (description : string)
  | ArrayLength (n : nat)
(** The body of a handler, run with [this] bound to the engine. *)
with handler : Type :=
  | HReturn
  | HRead (k : W -> handler)
  | HUpdate (f : W -> W) (k : handler)
  | HCall (c : call) (k : handler)
  | HThrow (x : string)
  | HTry (body : handler) (catch : string -> handler) (k : handler)
(** [this.sendToOutput(value, flag)], [this.pushShell(commands, prompt)],
    [this.popShell()]. *)
with call : Type :=
  | CSend (value : string) (returnInput : option bool)
  | CPush (commands : list (string * entry)) (prompt : string)
  | CPop.

Definition table : Type := list (string * entry).

(** [entry.description]; a number has none, and string concatenation
    renders [undefined]. *)
Definition description (e : entry) : string :=
  match e with Entry _ d => d | ArrayLength _ => "undefined" end.

(** Own properties that [for ... in] visits. *)
Definition enumerable (ke : string * entry) : bool :=
  match snd ke with Entry _ _ => true | ArrayLength _ => false end.

(** [availableCommands.hasOwnProperty(k)] and [availableCommands[k]] *)
Fixpoint lookup (k : string) (t : table) : option entry :=
  match t with
  | [] => None
  | (k', e) :: t' => if String.eqb k k' then Some e else lookup k t'
  end.

Record frame : Type := mkFrame { commands : table; fprompt : string }.

Record state : Type := mkState {
  prompt : string;
  shellStack : list frame;
  output : list string;
  input : string;
  inputDisabled : bool;
  availableCommands : table
}.

(** The empty array [[]]: its only own property is [length] (0). *)
Definition empty_array : table := [("length", ArrayLength 0)].

(** Initial value of the reducer's [state] parameter; [availableCommands]
    starts as the array [[]]. *)
Definition initial_state : state :=
  mkState "> " [] [] "" false empty_array.

Inductive action : Type :=
  | INPUT_ENTERED (value : string)
  | ADD_OUTPUT (value : string) (returnInput : bool)
  | RETURN_INPUT
  | PUSH_SHELL (commands : table) (prompt : string)
  | POP_SHELL
  | OTHER (type_ : string).

Definition err_pop_empty : string :=
  "TypeError: Cannot read properties of undefined (reading 'commands')".

(** [state.shellStack[state.shellStack.length - 1]]: [undefined] when the
    stack is empty (index -1). *)
Definition last_frame (st : list frame) : option frame :=
  match rev st with [] => None | f :: _ => Some f end.

(** The reducer [terminal] (unnamed/part_004, lines 45-92). *)
Definition terminal (s : state) (a : action) : result state :=
  match a with
  | INPUT_ENTERED v =>
      Ok (mkState (prompt s) (shellStack s) (output s ++ [prompt s ++ v])
                  (input s) true (availableCommands s))
  | ADD_OUTPUT v ri =>
      Ok (mkState (prompt s) (shellStack s) (output s ++ [v])
                  (input s) (negb ri) (availableCommands s))
  | RETURN_INPUT =>
      Ok (mkState (prompt s) (shellStack s) (output s)
                  (input s) false (availableCommands s))
  | PUSH_SHELL cmds p =>
      Ok (mkState p
                  (shellStack s ++ [mkFrame (availableCommands s) (prompt s)])
                  (output s) (input s) false cmds)
  | POP_SHELL =>
      match last_frame (shellStack s) with
      | None => Err err_pop_empty
      | Some f =>
          Ok (mkState (fprompt f) (removelast (shellStack s)) (output s)
                      (input s) false (commands f))
      end
  | OTHER _ => Ok s
  end.

End Terminal.

(** ** Action creators (src/gamestate/terminalActions.js) *)

Section Engine.

Context {W : Type}.

Definition inputEntered (value : string) : action (W:=W) := INPUT_ENTERED value.

(** [returnInput: returnInput === undefined ? true : false]; an absent
    argument is [None]. *)
Definition sendToOutput (value : string) (returnInput : option bool) : action (W:=W) :=
  ADD_OUTPUT value (match returnInput with None => true | Some _ => false end).

Definition returnInput : action (W:=W) := RETURN_INPUT.

Definition pushShell (commands : table (W:=W)) (prompt : string) : action (W:=W) :=
  PUSH_SHELL commands prompt.

Definition popShell : action (W:=W) := POP_SHELL.

(** ** The store: serialized dispatch *)

(** [store.dispatch]: a reducer that throws leaves the store state as it
    was and propagates the exception to the caller, which stops there. *)
Fixpoint dispatch_all (s : state) (acts : list (action (W:=W))) : state * option string :=
  match acts with
  | [] => (s, None)
  | a :: acts' =>
      match terminal s a with
      | Ok s' => dispatch_all s' acts'
      | Err x => (s, Some x)
      end
  end.

Definition run_actions (s : state) (acts : list (action (W:=W))) : result state :=
  match dispatch_all s acts with
  | (s', None) => Ok s'
  | (_, Some x) => Err x
  end.

(** ** The command engine (src/gamestate/commandEngine.js) *)

(** [commandEngine.sendToOutput(value, disable=true)]: dispatches
    [sendToOutput(value)]; its second argument is not passed on. *)
Definition engine_sendToOutput (value : string) (disable : option bool) : action (W:=W) :=
  sendToOutput value None.

Definition engine_pushShell (commands : table (W:=W)) (prompt : string) : action (W:=W) :=
  pushShell commands prompt.

Definition engine_popShell : action (W:=W) := popShell.

(** A call a handler makes through [this], i.e. the engine. *)
Definition call_action (c : call (W:=W)) : action (W:=W) :=
  match c with
  | CSend v d => engine_sendToOutput v d
  | CPush cmds p => engine_pushShell cmds p
  | CPop => engine_popShell
  end.

(** [commandEngine.showHelp(availableCommands)]: the calls it makes. *)
Definition help_header : string :=
  "action       | Description" ++ crlf ++ "--------------------".

Definition help_line (k : string) (e : entry (W:=W)) : string :=
  pad12 k ++ "| " ++ description e.

(** [for (var availableCommand in availableCommands)] visits the
    enumerable properties only. *)
Definition showHelp (availableCommands : table (W:=W)) : list (call (W:=W)) :=
  CSend help_header None
    :: map (fun ke => CSend (help_line (fst ke) (snd ke)) None)
           (filter enumerable availableCommands).

(** Running a handler body on the store and the world: the store state,
    the world and the exception that escaped the handler, if any.  A
    dispatch that throws stops the handler there, unless a [try] around it
    catches the exception. *)
Fixpoint exec (h : handler (W:=W)) (s : state (W:=W)) (w : W)
  : state (W:=W) * W * option string :=
  match h with
  | HReturn => (s, w, None)
  | HRead k => exec (k w) s w
  | HUpdate f k => exec k s (f w)
  | HCall c k =>
      match terminal s (call_action c) with
      | Ok s' => exec k s' w
      | Err x => (s, w, Some x)
      end
  | HThrow x => (s, w, Some x)
  | HTry body catch k =>
      match exec body s w with
      | (s1, w1, None) => exec k s1 w1
      | (s1, w1, Some x) =>
          match exec (catch x) s1 w1 with
          | (s2, w2, None) => exec k s2 w2
          | r => r
          end
      end
  end.


(** [availableCommands[command].func.bind(...)] on a number: [func] is
    [undefined]. *)
Definition err_bind : string :=
  "TypeError: Cannot read properties of undefined (reading 'bind')".

(** A timer registered with [setTimeout].  In the dispatch branch the first
    argument is the value the handler returned, [undefined]; a browser
    runs a non-function timer handler as the script ["undefined"], which
    evaluates an expression and changes nothing. *)
Inductive task : Type :=
  | TimeoutUndefined (delay : nat).

Definition run_task (t : task) (s : state (W:=W)) : state (W:=W) :=
  match t with TimeoutUndefined _ => s end.

Definition run_tasks (ts : list task) (s : state (W:=W)) : state (W:=W) :=
  fold_left (fun s t => run_task t s) ts s.

Record engine : Type := mkEngine { st : state (W:=W); world : W }.

(** The result of [runCommand]: the engine afterwards, the timers it left
    pending and the exception it threw, if any. *)
Record run_result : Type := mkRun {
  after : engine;
  pending : list task;
  thrown : option string
}.

(** [commandEngine.runCommand(fullCommand)].  In the dispatch branch,
    [setTimeout((f.bind(commandEngine))(fullCommand), 1)] calls the bound
    handler at once and hands its return value to [setTimeout]; an
    exception escaping the handler propagates out of [runCommand] before
    [setTimeout] is called.  [hasOwnProperty] is true of every own
    property, also of an array's [length], whose [func] is [undefined]. *)
Definition runCommand (e : engine) (fullCommand : string) : run_result :=
  let command := first_token fullCommand in
  match dispatch_all (st e) [inputEntered fullCommand] with
  | (s1, Some x) => mkRun (mkEngine s1 (world e)) [] (Some x)
  | (s1, None) =>
      let availableCommands := availableCommands s1 in
      if String.eqb command "" then
        let (s2, x) := dispatch_all s1 [returnInput] in
        mkRun (mkEngine s2 (world e)) [] x
      else if String.eqb command "help" then
        let (s2, x) := dispatch_all s1 (map call_action (showHelp availableCommands)) in
        mkRun (mkEngine s2 (world e)) [] x
      else match lookup command availableCommands with
        | Some (Entry f _) =>
            match exec (f fullCommand) s1 (world e) with
            | (s2, w', None) => mkRun (mkEngine s2 w') [TimeoutUndefined 1] None
            | (s2, w', Some x) => mkRun (mkEngine s2 w') [] (Some x)
            end
        | Some (ArrayLength _) => mkRun (mkEngine s1 (world e)) [] (Some err_bind)
        | None =>
            let (s2, x) := dispatch_all s1 [call_action (CSend "bad command" None)] in
            mkRun (mkEngine s2 (world e)) [] x
        end
  end.

(** [commandEngine.start(initialState)] *)
Definition start (s : state (W:=W)) (rootCommands : table (W:=W)) (initialOutput : string)
  : state (W:=W) * option string :=
  dispatch_all s [pushShell rootCommands "> "; sendToOutput initialOutput None].

End Engine.

(** ** The mailbox builder (unnamed/part_001) and chapter 1 *)

Module Mailbox.

Record mail : Type := mkMail { from : string; to : string; sent : string; body : string }.

Record mails : Type := mkMails { unread : list mail; read : list mail }.

(** [pluralize('e-mail', n)] of the pluralize package: the singular for a
    count of 1, the plural otherwise. *)
Definition pluralize (word : string) (n : nat) : string :=
  if Nat.eqb n 1 then word else word ++ "s".

Definition delimiter : string := "------------------------" ++ crlf.

Definition format_mail (currentMail : mail) : string :=
  delimiter ++ "from: " ++ from currentMail ++
  crlf ++ delimiter ++ crlf ++ "sent at: " ++ sent currentMail ++
  crlf ++ delimiter ++ crlf ++ "body: " ++ body currentMail.

Definition no_more : string := "there are no more unread e-mails".

(** The [next] handler: [mails.unread.shift()], [mails.read.push(..)],
    then [this.sendToOutput(..)]. *)
Definition shift_unread (m : mails) : mails :=
  mkMails (tl (unread m)) (read m).

Definition push_read (currentMail : mail) (m : mails) : mails :=
  mkMails (unread m) (read m ++ [currentMail]).

Definition next_func (_ : string) : handler (W:=mails) :=
  HRead (fun m =>
    match unread m with
    | [] => HCall (CSend no_more None) HReturn
    | currentMail :: _ =>
        HUpdate shift_unread
          (HUpdate (push_read currentMail)
             (HCall (CSend (format_mail currentMail) None) HReturn))
    end).

Definition quit_func (_ : string) : handler (W:=mails) :=
  HCall CPop HReturn.

Definition mailbox_table : table (W:=mails) :=
  [("next", Entry next_func "read next unread mail");
   ("quit", Entry quit_func "quit the mailbox")].

Definition summary (unreadMailCount : nat) : string :=
  "You have " ++ nat_to_string unreadMailCount ++ " unread " ++
  pluralize "e-mail" unreadMailCount ++ " in your mailbox".

(** The top-level [mailbox] handler: [args = command.split(' ')],
    [args.shift()], and only when [args.length === 0] does it report and
    push the mailbox shell. *)
Definition mailbox_func (command : string) : handler (W:=mails) :=
  HRead (fun m =>
    let unreadMailCount := List.length (unread m) in
    let args := tl (split_space command) in
    if Nat.eqb (List.length args) 0 then
      HCall (CSend (summary unreadMailCount) None)
        (HCall (CPush mailbox_table "mailbox > ") HReturn)
    else HReturn).

Definition mailbox : entry (W:=mails) := Entry mailbox_func "opens the mailbox".

Definition nl : string := String (ascii_of_nat 10) EmptyString.

Definition chapter1_mails : mails :=
  mkMails
    [mkMail "Elda Vice" "Taylor Fen" "3 days ago"
       ("Hi Taylor " ++ nl ++ " How are you? " ++ nl ++
        " I've been worried lately, you haven't sent in your daily report for 3 days now, are you ok?");
     mkMail "Elda Vice" "Taylor Fen" "Yesterday"
       "Taylor - please send me a mail once you get this, I need to tell you something important"]
    [].

Definition rootCommands : table (W:=mails) := [("mailbox", mailbox)].

Definition initialOutput : string :=
  "Welcome to sparrownet terminal (v2.14.1)" ++ nl ++
  "Important*: Your system is not up-to-date. Please speak with your system adminstrator.".

(** The engine after [commandEngine.start(chapter1)] from the reducer's
    initial state. *)
Definition started : engine (W:=mails) :=
  mkEngine (fst (start initial_state rootCommands initialOutput)) chapter1_mails.

End Mailbox.

(** ** Sanity checks on concrete inputs *)

Example split_ex : split_space "mailbox x y" = ["mailbox"; "x"; "y"].
Proof. reflexivity. Qed.

Example first_token_ex : first_token " a" = "".
Proof. reflexivity. Qed.

Example nat_to_string_ex : nat_to_string 120 = "120".
Proof. reflexivity. Qed.

Example pad12_ex : pad12 "next" = "next        ".
Proof. reflexivity. Qed.

Example started_ex :
  prompt (st Mailbox.started) = "> " /\
  output (st Mailbox.started) = [Mailbox.initialOutput] /\
  inputDisabled (st Mailbox.started) = false.
Proof. repeat split; reflexivity. Qed.

(** * Properties *)

Section Properties.

Context {W : Type}.

(** Equations of the engine, used by several properties below. *)

Lemma first_token_neq_eqb (full k : string) :
  first_token full <> k -> String.eqb (first_token full) k = false.
Proof. intro H. apply String.eqb_neq. exact H. Qed.

Lemma dispatch_all_cons (s : state (W:=W)) a acts s1 :
  terminal s a = Ok s1 -> dispatch_all s (a :: acts) = dispatch_all s1 acts.
Proof. intro H. simpl. rewrite H. reflexivity. Qed.

(** The state right after the echo of [INPUT_ENTERED]. *)
Definition echoed (s : state (W:=W)) (full : string) : state (W:=W) :=
  mkState (prompt s) (shellStack s) (output s ++ [prompt s ++ full])
          (input s) true (availableCommands s).

Lemma dispatch_echo (s : state (W:=W)) full :
  dispatch_all s [inputEntered full] = (echoed s full, None).
Proof. reflexivity. Qed.

(** ** C1 *)

(** C1 (amended): popping a state whose shell stack is empty throws the
    TypeError of reading [commands] of [undefined]; the store keeps its
    state and the exception reaches the caller. *)
Theorem pop_shell_empty_throws (s : state (W:=W)) :
  shellStack s = [] ->
  terminal s popShell = Err err_pop_empty /\
  dispatch_all s [popShell] = (s, Some err_pop_empty).
Proof.
  intro H. unfold popShell. simpl. rewrite H. split; reflexivity.
Qed.

(** ** C3 *)

(** C3: every transition of the reducer that yields a state keeps the old
    output as a prefix of the new one. *)
Theorem terminal_output_append_only (s s' : state (W:=W)) (a : action (W:=W)) :
  terminal s a = Ok s' -> exists k, output s' = (output s ++ k)%list.
Proof.
  destruct a as [v | v ri | | cmds p | | ty]; simpl; intro H.
  - inversion H; subst; simpl. eexists; reflexivity.
  - inversion H; subst; simpl. eexists; reflexivity.
  - inversion H; subst; simpl. exists []. rewrite app_nil_r. reflexivity.
  - inversion H; subst; simpl. exists []. rewrite app_nil_r. reflexivity.
  - destruct (last_frame (shellStack s)); [|discriminate].
    inversion H; subst; simpl. exists []. rewrite app_nil_r. reflexivity.
  - inversion H; subst. exists []. rewrite app_nil_r. reflexivity.
Qed.

(** ** C4 *)

(** C4: [commandEngine.sendToOutput(value, flag)] appends [value] and
    leaves input enabled whatever flag is passed: the flag is not forwarded
    to the action creator. *)
Theorem engine_sendToOutput_ignores_flag (s : state (W:=W)) value flag :
  terminal s (engine_sendToOutput value flag) =
  Ok (mkState (prompt s) (shellStack s) (output s ++ [value]) (input s) false
              (availableCommands s)).
Proof. reflexivity. Qed.

(** ** C5 *)

(** C5 (code): while the active table is the reducer's default, the array
    [[]] (before [start], or at the bottom frame [start] saves), the line
    ["length"], whose token names no command, passes [hasOwnProperty] and
    makes [runCommand] throw the TypeError of reading [bind] of
    [undefined]: no ["bad command"] is output, input stays disabled and no
    timer is set. *)
Theorem runCommand_array_length_throws (e : engine (W:=W)) :
  availableCommands (st e) = empty_array ->
  (forall f d, lookup "length" (availableCommands (st e)) <> Some (Entry f d)) /\
  runCommand e "length" =
    mkRun (mkEngine (echoed (st e) "length") (world e)) [] (Some err_bind).
Proof.
  intro H. split.
  - intros f d. rewrite H. discriminate.
  - unfold runCommand. rewrite dispatch_echo. simpl. rewrite H. reflexivity.
Qed.

(** An unknown, non-empty, non-[help] first token, no own property of the
    active table, echoes the line, appends exactly one ["bad command"],
    re-enables input and leaves the shell stack, the active table, the
    prompt and the world unchanged. *)
Theorem runCommand_unknown (e : engine (W:=W)) (full : string) :
  first_token full <> "" -> first_token full <> "help" ->
  lookup (first_token full) (availableCommands (st e)) = None ->
  runCommand e full =
  mkRun (mkEngine
           (mkState (prompt (st e)) (shellStack (st e))
              (output (st e) ++ [(prompt (st e) ++ full)%string] ++ ["bad command"])
              (input (st e)) false (availableCommands (st e)))
           (world e))
        [] None.
Proof.
  intros H1 H2 H3. unfold runCommand. simpl.
  rewrite (first_token_neq_eqb _ _ H1), (first_token_neq_eqb _ _ H2), H3.
  simpl. rewrite <- app_assoc. reflexivity.
Qed.

End Properties.

Section Shell.

Context {W : Type}.

(** ** C2 *)

(** [balanced_from d l]: [l] consists of [PUSH_SHELL]/[POP_SHELL] actions,
    no prefix pops more than [d] plus its pushes, and the pushes and pops of
    [l] leave exactly [d] more pops than pushes. *)
Fixpoint balanced_from (d : nat) (l : list (action (W:=W))) : bool :=
  match l with
  | [] => Nat.eqb d 0
  | PUSH_SHELL _ _ :: l' => balanced_from (S d) l'
  | POP_SHELL :: l' =>
      match d with 0 => false | S d' => balanced_from d' l' end
  | _ :: _ => false
  end.

(** Equal numbers of pushes and pops, no prefix with more pops than
    pushes. *)
Definition balanced (l : list (action (W:=W))) : bool := balanced_from 0 l.

(** All frames of the conceptual stack, the active one last. *)
Definition view (s : state (W:=W)) : list (frame (W:=W)) :=
  (shellStack s ++ [mkFrame (availableCommands s) (prompt s)])%list.

Lemma view_length (s : state (W:=W)) :
  List.length (view s) = S (List.length (shellStack s)).
Proof. unfold view. rewrite length_app. simpl. lia. Qed.

Lemma firstn_app_le {A} (n : nat) (l l' : list A) :
  n <= List.length l -> firstn n (l ++ l') = firstn n l.
Proof.
  intro H. rewrite firstn_app.
  replace (n - List.length l) with 0 by lia. simpl. apply app_nil_r.
Qed.

Lemma balanced_from_run (l : list (action (W:=W))) :
  forall d s, balanced_from d l = true -> d <= List.length (shellStack s) ->
  exists s', dispatch_all s l = (s', None) /\
             view s' = firstn (List.length (view s) - d) (view s).
Proof.
  induction l as [| a l IH]; intros d s Hb Hd.
  - simpl in Hb. apply Nat.eqb_eq in Hb. subst d.
    exists s. split; [reflexivity|].
    rewrite Nat.sub_0_r, firstn_all. reflexivity.
  - destruct a as [v | v ri | | cmds p | | ty]; try discriminate.
    + (* PUSH_SHELL *)
      simpl in Hb.
      set (s1 := mkState p (shellStack s ++ [mkFrame (availableCommands s) (prompt s)])
                   (output s) (input s) false cmds).
      assert (Hv : view s1 = (view s ++ [mkFrame cmds p])%list) by reflexivity.
      destruct (IH (S d) s1 Hb) as [s' [Hrun Hview]].
      { simpl. rewrite length_app. simpl. lia. }
      exists s'. split; [exact Hrun|].
      rewrite Hview, Hv, length_app, view_length.
      rewrite firstn_app_le by (rewrite view_length; simpl; lia).
      f_equal. cbn [List.length]. lia.
    + (* POP_SHELL *)
      destruct d as [| d']; [discriminate|]. simpl in Hb.
      assert (Hne : shellStack s <> []).
      { intro E. rewrite E in Hd. simpl in Hd. lia. }
      destruct (exists_last Hne) as [st0 [f Hst]].
      assert (Hlast : last_frame (st0 ++ [f]) = Some f).
      { unfold last_frame. rewrite rev_app_distr. reflexivity. }
      set (s1 := mkState (fprompt f) st0 (output s) (input s) false (commands f)).
      assert (Ht : terminal s POP_SHELL = Ok s1).
      { simpl. rewrite Hst, Hlast, removelast_last. reflexivity. }
      assert (Hv : view s = (view s1 ++ [mkFrame (availableCommands s) (prompt s)])%list).
      { unfold view. rewrite Hst. simpl. destruct f. reflexivity. }
      rewrite Hst, length_app in Hd. simpl in Hd.
      destruct (IH d' s1 Hb) as [s' [Hrun Hview]].
      { simpl. lia. }
      exists s'. split.
      * rewrite (dispatch_all_cons _ _ _ _ Ht). exact Hrun.
      * rewrite Hview, Hv, length_app, (view_length s1).
        change (shellStack s1) with st0.
        rewrite firstn_app_le
          by (rewrite view_length; change (shellStack s1) with st0; cbn [List.length]; lia).
        f_equal. cbn [List.length]. lia.
Qed.

(** C2: a balanced sequence of pushes and pops never throws and restores
    the active command table and prompt (and the shell stack). *)
Theorem balanced_push_pop_restores (s : state (W:=W)) (l : list (action (W:=W))) :
  balanced l = true ->
  exists s', run_actions s l = Ok s' /\
             availableCommands s' = availableCommands s /\ prompt s' = prompt s /\
             shellStack s' = shellStack s.
Proof.
  intro Hb. destruct (balanced_from_run l 0 s Hb (Nat.le_0_l _)) as [s' [Hrun Hview]].
  rewrite Nat.sub_0_r, firstn_all in Hview. unfold view in Hview.
  apply app_inj_tail in Hview. destruct Hview as [Hst Hf].
  inversion Hf. exists s'. unfold run_actions. rewrite Hrun. auto.
Qed.

End Shell.

Section Dispatch.

Context {W : Type}.

(** A run of [sendToOutput] calls appends their values and leaves input
    enabled. *)
Lemma dispatch_sends (vs : list string) :
  forall (s : state (W:=W)) v,
  dispatch_all s (map (fun x => call_action (CSend x None)) (v :: vs)) =
  (mkState (prompt s) (shellStack s) (output s ++ v :: vs)%list (input s) false
           (availableCommands s), None).
Proof.
  induction vs as [| v' vs IH]; intros s v.
  - reflexivity.
  - change (dispatch_all s (map (fun x => call_action (CSend x None)) (v :: v' :: vs)))
      with (dispatch_all
              (mkState (prompt s) (shellStack s) (output s ++ [v])%list (input s) false
                       (availableCommands s))
              (map (fun x => call_action (CSend x None)) (v' :: vs))).
    rewrite IH. simpl. rewrite <- app_assoc. reflexivity.
Qed.

Lemma showHelp_sends (t : table (W:=W)) :
  map call_action (showHelp t) =
  map (fun x => call_action (CSend x None))
      (help_header :: map (fun ke => help_line (fst ke) (snd ke)) (filter enumerable t)).
Proof. unfold showHelp. cbn [map]. rewrite !map_map. reflexivity. Qed.

(** The help branch of [runCommand]. *)
Lemma runCommand_help_eq (e : engine (W:=W)) (full : string) :
  first_token full = "help" ->
  runCommand e full =
  mkRun (mkEngine
           (mkState (prompt (st e)) (shellStack (st e))
              (output (st e) ++ [(prompt (st e) ++ full)%string] ++
               help_header :: map (fun ke => help_line (fst ke) (snd ke))
                                  (filter enumerable (availableCommands (st e))))%list
              (input (st e)) false (availableCommands (st e)))
           (world e))
        [] None.
Proof.
  intro H. unfold runCommand. rewrite H, dispatch_echo.
  cbn -[showHelp dispatch_all].
  rewrite showHelp_sends, dispatch_sends. simpl.
  rewrite <- app_assoc. reflexivity.
Qed.

(** The dispatch branch of [runCommand]: the handler is called before
    [runCommand] returns, and its body runs on the state right after the
    echo. *)
Lemma runCommand_dispatch_eq (e : engine (W:=W)) (full : string) f d w' s2 :
  first_token full <> "" -> first_token full <> "help" ->
  lookup (first_token full) (availableCommands (st e)) = Some (Entry f d) ->
  exec (f full) (echoed (st e) full) (world e) = (s2, w', None) ->
  runCommand e full = mkRun (mkEngine s2 w') [TimeoutUndefined 1] None.
Proof.
  intros H1 H2 H3 H4. unfold runCommand. rewrite dispatch_echo. cbv zeta.
  rewrite (first_token_neq_eqb _ _ H1), (first_token_neq_eqb _ _ H2).
  change (availableCommands (echoed (st e) full)) with (availableCommands (st e)).
  rewrite H3, H4. reflexivity.
Qed.


(** ** C7 *)

(** C7 (amended): [help] echoes the line, then appends a header and one
    entry per key of the active table (its enumerable own properties), in
    its enumeration order, each the key padded with spaces and cut to 12
    characters, then ["| "] and the entry's description, each through its
    own AddOutput; nothing from the saved frames is listed and input is
    re-enabled. *)
Theorem runCommand_help_listing (e : engine (W:=W)) (full : string) :
  first_token full = "help" ->
  output (st (after (runCommand e full))) =
    (output (st e) ++ [(prompt (st e) ++ full)%string] ++
     help_header :: map (fun ke => (pad12 (fst ke) ++ "| " ++ description (snd ke))%string)
                        (filter enumerable (availableCommands (st e))))%list /\
  List.length (map call_action (showHelp (availableCommands (st e)))) =
    S (List.length (filter enumerable (availableCommands (st e)))) /\
  inputDisabled (st (after (runCommand e full))) = false /\
  shellStack (st (after (runCommand e full))) = shellStack (st e) /\
  availableCommands (st (after (runCommand e full))) = availableCommands (st e) /\
  prompt (st (after (runCommand e full))) = prompt (st e).
Proof.
  intro H. rewrite (runCommand_help_eq e full H). simpl.
  rewrite length_map, length_map. repeat split; reflexivity.
Qed.

(** ** C9 *)


(** ** C10 *)

(** C10: with a ['help'] entry in the active table, a line whose first
    token is ['help'] still runs the built-in listing: the world the
    handlers close over is untouched, no timer is set, and the output is
    the built-in listing of the table. *)
Theorem help_entry_shadowed (e : engine (W:=W)) (full : string) en :
  lookup "help" (availableCommands (st e)) = Some en ->
  first_token full = "help" ->
  runCommand e full =
  mkRun (mkEngine
           (mkState (prompt (st e)) (shellStack (st e))
              (output (st e) ++ [(prompt (st e) ++ full)%string] ++
               help_header :: map (fun ke => help_line (fst ke) (snd ke))
                                  (filter enumerable (availableCommands (st e))))%list
              (input (st e)) false (availableCommands (st e)))
           (world e))
        [] None.
Proof.
  intros _ H. exact (runCommand_help_eq e full H).
Qed.

End Dispatch.

(** ** Mailbox scenarios *)

Ltac not_token := let X := fresh in intro X; vm_compute in X; discriminate X.

(** The engine after entering the mailbox of chapter 1. *)
Definition in_mailbox : engine (W:=Mailbox.mails) :=
  after (runCommand Mailbox.started "mailbox").

(** ** C6 *)

(** C6 (code): [runCommand "mailbox"] has already run the handler when it
    returns: its summary and its [pushShell] are in the returned state,
    right after the echo, and the only pending timer, set with the
    handler's return value [undefined], changes nothing. *)
Theorem mailbox_handler_runs_before_return :
  output (st in_mailbox) =
    [Mailbox.initialOutput; "> mailbox"; "You have 2 unread e-mails in your mailbox"] /\
  prompt (st in_mailbox) = "mailbox > " /\
  availableCommands (st in_mailbox) = Mailbox.mailbox_table /\
  pending (runCommand Mailbox.started "mailbox") = [TimeoutUndefined 1] /\
  run_tasks (pending (runCommand Mailbox.started "mailbox")) (st in_mailbox) = st in_mailbox.
Proof. repeat split; reflexivity. Qed.

(** ** C8 *)

(** C8: in the mailbox shell, [next] with no unread mail reports so and
    leaves the lists alone; otherwise it moves the first unread mail to the
    end of the read list and outputs it in the delimiter-bordered format. *)
Theorem mailbox_next (e : engine (W:=Mailbox.mails)) :
  availableCommands (st e) = Mailbox.mailbox_table ->
  (Mailbox.unread (world e) = [] ->
     world (after (runCommand e "next")) = world e /\
     output (st (after (runCommand e "next"))) =
       (output (st e) ++ [(prompt (st e) ++ "next")%string; Mailbox.no_more])%list) /\
  (forall currentMail rest, Mailbox.unread (world e) = currentMail :: rest ->
     world (after (runCommand e "next")) =
       Mailbox.mkMails rest (Mailbox.read (world e) ++ [currentMail]) /\
     output (st (after (runCommand e "next"))) =
       (output (st e) ++ [(prompt (st e) ++ "next")%string;
                          Mailbox.format_mail currentMail])%list).
Proof.
  intro H. destruct e as [s [u rd]]. simpl in H |- *. split.
  - intros ->.
    erewrite runCommand_dispatch_eq;
      [ | not_token | not_token
        | simpl; rewrite H; reflexivity | reflexivity ].
    simpl. split; [reflexivity | rewrite <- app_assoc; reflexivity].
  - intros currentMail rest ->.
    erewrite runCommand_dispatch_eq;
      [ | not_token | not_token
        | simpl; rewrite H; reflexivity | reflexivity ].
    simpl. split; [reflexivity | rewrite <- app_assoc; reflexivity].
Qed.

(** * Witnesses and counterexamples *)

Definition empty_state : state (W:=Mailbox.mails) := initial_state.

Lemma pop_shell_empty_throws_witness :
  shellStack empty_state = [] /\
  (terminal empty_state popShell = Err err_pop_empty /\
   dispatch_all empty_state [popShell] = (empty_state, Some err_pop_empty)).
Proof.
  split; [reflexivity|]. apply (pop_shell_empty_throws empty_state). reflexivity.
Defined.

(** C1 as stated fails: popping the empty stack is not a no-op. *)
Lemma pop_shell_empty_not_noop :
  ~ (forall s : state (W:=Mailbox.mails),
       shellStack s = [] -> terminal s popShell = Ok s).
Proof.
  intro H. specialize (H empty_state eq_refl). discriminate H.
Qed.

Definition push_pop_sequence : list (action (W:=Mailbox.mails)) :=
  [pushShell Mailbox.mailbox_table "mailbox > "; pushShell [] "x > ";
   popShell; popShell; pushShell [] "y > "; popShell].

Lemma balanced_push_pop_restores_witness :
  balanced push_pop_sequence = true /\
  exists s', run_actions (st in_mailbox) push_pop_sequence = Ok s' /\
    availableCommands s' = availableCommands (st in_mailbox) /\
    prompt s' = prompt (st in_mailbox) /\
    shellStack s' = shellStack (st in_mailbox).
Proof.
  split; [reflexivity|]. apply balanced_push_pop_restores. reflexivity.
Defined.

Lemma terminal_output_append_only_witness :
  terminal (st in_mailbox) (inputEntered "next") =
    Ok (echoed (st in_mailbox) "next") /\
  exists k, output (echoed (st in_mailbox) "next") = (output (st in_mailbox) ++ k)%list.
Proof.
  split; [reflexivity|].
  apply (terminal_output_append_only (st in_mailbox) _ (inputEntered "next")).
  reflexivity.
Defined.

(** C4 (code): [commandEngine.sendToOutput("x", false)] leaves input
    enabled. *)
Lemma engine_sendToOutput_false_enables :
  terminal (st Mailbox.started) (engine_sendToOutput "x" (Some false)) =
  Ok (mkState "> " [mkFrame empty_array "> "] [Mailbox.initialOutput; "x"] "" false
              Mailbox.rootCommands).
Proof. reflexivity. Qed.

Definition before_start : engine (W:=Mailbox.mails) :=
  mkEngine initial_state Mailbox.chapter1_mails.

Lemma runCommand_array_length_throws_witness :
  availableCommands (st before_start) = empty_array /\
  ((forall f d, lookup "length" (availableCommands (st before_start)) <> Some (Entry f d)) /\
   runCommand before_start "length" =
     mkRun (mkEngine (echoed (st before_start) "length") (world before_start)) []
           (Some err_bind)).
Proof.
  split; [reflexivity|]. apply runCommand_array_length_throws. reflexivity.
Defined.

Lemma runCommand_unknown_witness :
  first_token "xyz" <> "" /\ first_token "xyz" <> "help" /\
  lookup (first_token "xyz") (availableCommands (st Mailbox.started)) = None /\
  runCommand Mailbox.started "xyz" =
  mkRun (mkEngine
           (mkState (prompt (st Mailbox.started)) (shellStack (st Mailbox.started))
              (output (st Mailbox.started) ++ [prompt (st Mailbox.started) ++ "xyz"]
                 ++ ["bad command"])
              (input (st Mailbox.started)) false
              (availableCommands (st Mailbox.started)))
           (world Mailbox.started))
        [] None.
Proof.
  split; [not_token|]. split; [not_token|]. split; [reflexivity|].
  apply runCommand_unknown; [not_token | not_token | reflexivity].
Defined.

Lemma runCommand_help_listing_witness :
  first_token "help" = "help" /\
  output (st (after (runCommand Mailbox.started "help"))) =
    (output (st Mailbox.started) ++ [(prompt (st Mailbox.started) ++ "help")%string] ++
     help_header :: map (fun ke => (pad12 (fst ke) ++ "| " ++ description (snd ke))%string)
                        (filter enumerable (availableCommands (st Mailbox.started))))%list /\
  List.length (map call_action (showHelp (availableCommands (st Mailbox.started)))) =
    S (List.length (filter enumerable (availableCommands (st Mailbox.started)))) /\
  inputDisabled (st (after (runCommand Mailbox.started "help"))) = false /\
  shellStack (st (after (runCommand Mailbox.started "help"))) = shellStack (st Mailbox.started) /\
  availableCommands (st (after (runCommand Mailbox.started "help"))) =
    availableCommands (st Mailbox.started) /\
  prompt (st (after (runCommand Mailbox.started "help"))) = prompt (st Mailbox.started).
Proof.
  split; [reflexivity|]. apply runCommand_help_listing. reflexivity.
Defined.

(** C7 as stated fails: the listing is not one AddOutput; at the root
    table of chapter 1 it is two (a header and one line), so [help] adds
    three entries counting the echo. *)
Lemma help_listing_not_one_output :
  output (st (after (runCommand Mailbox.started "help"))) =
    [Mailbox.initialOutput; "> help"; help_header; "mailbox     | opens the mailbox"] /\
  map call_action (showHelp Mailbox.rootCommands) =
    [ADD_OUTPUT help_header true; ADD_OUTPUT "mailbox     | opens the mailbox" true] /\
  List.length (output (st (after (runCommand Mailbox.started "help")))) <>
    List.length (output (st Mailbox.started)) + 2.
Proof. split; [reflexivity|]. split; [reflexivity|]. vm_compute. discriminate. Qed.

Lemma mailbox_next_witness :
  availableCommands (st in_mailbox) = Mailbox.mailbox_table /\
  ((Mailbox.unread (world in_mailbox) = [] ->
     world (after (runCommand in_mailbox "next")) = world in_mailbox /\
     output (st (after (runCommand in_mailbox "next"))) =
       (output (st in_mailbox) ++ [(prompt (st in_mailbox) ++ "next")%string;
                                   Mailbox.no_more])%list) /\
  (forall currentMail rest, Mailbox.unread (world in_mailbox) = currentMail :: rest ->
     world (after (runCommand in_mailbox "next")) =
       Mailbox.mkMails rest (Mailbox.read (world in_mailbox) ++ [currentMail]) /\
     output (st (after (runCommand in_mailbox "next"))) =
       (output (st in_mailbox) ++ [(prompt (st in_mailbox) ++ "next")%string;
                                   Mailbox.format_mail currentMail])%list)).
Proof.
  split; [reflexivity|]. apply mailbox_next. reflexivity.
Defined.


(** A root table that declares its own [help], whose handler would clear
    the unread mails and pop the shell. *)
Definition own_help : entry (W:=Mailbox.mails) :=
  Entry (fun _ => HUpdate (fun m => Mailbox.mkMails [] (Mailbox.read m)) (HCall CPop HReturn))
        "custom help".

Definition with_own_help : engine (W:=Mailbox.mails) :=
  mkEngine (mkState "> " [] [] "" false [("help", own_help); ("mailbox", Mailbox.mailbox)])
           Mailbox.chapter1_mails.

Lemma help_entry_shadowed_witness :
  lookup "help" (availableCommands (st with_own_help)) = Some own_help /\
  first_token "help me" = "help" /\
  runCommand with_own_help "help me" =
  mkRun (mkEngine
           (mkState "> " []
              ["> help me"; help_header; help_line "help" own_help;
               help_line "mailbox" Mailbox.mailbox]
              "" false [("help", own_help); ("mailbox", Mailbox.mailbox)])
           Mailbox.chapter1_mails)
        [] None.
Proof.
  split; [reflexivity|]. split; [reflexivity|].
  apply (help_entry_shadowed with_own_help "help me" own_help); reflexivity.
Defined.

(** * Further properties of the engine and the mailbox *)

(** [has_space s]: [s] contains the character [' ']. *)
Fixpoint has_space (s : string) : bool :=
  match s with
  | EmptyString => false
  | String c rest => Ascii.eqb c " "%char || has_space rest
  end.

(** [k] successive [next] commands. *)
Fixpoint next_times (k : nat) (e : engine (W:=Mailbox.mails)) : engine (W:=Mailbox.mails) :=
  match k with
  | 0 => e
  | S k' => next_times k' (after (runCommand e "next"))
  end.

Section EngineExtra.

Context {W : Type}.

(** The empty-command branch: a line whose first token is empty (the empty
    line, or any line starting with a space) is echoed and input is
    re-enabled; nothing else happens. *)
Theorem runCommand_empty_command (e : engine (W:=W)) (full : string) :
  first_token full = "" ->
  runCommand e full =
  mkRun (mkEngine
           (mkState (prompt (st e)) (shellStack (st e))
              (output (st e) ++ [(prompt (st e) ++ full)%string])%list
              (input (st e)) false (availableCommands (st e)))
           (world e))
        [] None.
Proof. intro H. unfold runCommand. rewrite H, dispatch_echo. reflexivity. Qed.

(** A handler whose body starts with [this.popShell()], outside any
    [try], while the shell stack is empty makes [runCommand] throw: the
    rest of the handler never runs, so the narrative data is unchanged; no
    timer is set and the store keeps the echoed state, so input stays
    disabled. *)
Theorem runCommand_pop_on_empty_throws (e : engine (W:=W)) (full : string) f d k :
  shellStack (st e) = [] ->
  first_token full <> "" -> first_token full <> "help" ->
  lookup (first_token full) (availableCommands (st e)) = Some (Entry f d) ->
  f full = HCall CPop k ->
  runCommand e full =
    mkRun (mkEngine (echoed (st e) full) (world e)) [] (Some err_pop_empty).
Proof.
  intros H0 H1 H2 H3 H4. unfold runCommand. rewrite dispatch_echo. cbv zeta.
  rewrite (first_token_neq_eqb _ _ H1), (first_token_neq_eqb _ _ H2).
  change (availableCommands (echoed (st e) full)) with (availableCommands (st e)).
  rewrite H3, H4. simpl. rewrite H0. reflexivity.
Qed.

End EngineExtra.

(** Substrings used by [pad12]. *)
Lemma string_length_app (s t : string) :
  String.length (s ++ t) = String.length s + String.length t.
Proof. induction s as [| c s IH]; simpl; [reflexivity | rewrite IH; reflexivity]. Qed.

Lemma substring_0_length (n : nat) (t : string) :
  n <= String.length t -> String.length (substring 0 n t) = n.
Proof.
  revert t. induction n as [| n IH]; intros t H; [destruct t; reflexivity|].
  destruct t as [| c t]; simpl in *; [lia|]. f_equal. apply IH. lia.
Qed.

Lemma substring_0_app (s t : string) (n : nat) :
  String.length s <= n -> substring 0 n (s ++ t) = s ++ substring 0 (n - String.length s) t.
Proof.
  revert n. induction s as [| c s IH]; intros n H.
  - simpl. rewrite Nat.sub_0_r. reflexivity.
  - destruct n as [| n]; simpl in *; [lia|]. f_equal. apply IH. lia.
Qed.

(** The help column: [pad12 k] always has exactly 12 characters; a name
    of at most 12 characters is kept and padded with spaces on the right,
    a longer one is cut to its first 12 characters. *)
Theorem pad12_column (k : string) :
  String.length (pad12 k) = 12 /\
  (String.length k <= 12 -> pad12 k = k ++ substring 0 (12 - String.length k) spaces18) /\
  (12 <= String.length k -> pad12 k = substring 0 12 k).
Proof.
  unfold pad12. split; [|split].
  - apply substring_0_length. rewrite string_length_app. simpl. lia.
  - apply substring_0_app.
  - intro H. revert k H. generalize 12 as n.
    intros n k. revert n. induction k as [| c k IH]; intros n H.
    + simpl in H. assert (n = 0) by lia. subst. reflexivity.
    + destruct n as [| n]; [reflexivity|]. simpl in *. f_equal. apply IH. lia.
Qed.

Lemma split_space_nonempty (s : string) : split_space s <> [].
Proof.
  induction s as [| c s IH]; simpl; [discriminate|].
  destruct (Ascii.eqb c " "%char); [discriminate|].
  destruct (split_space s); [contradiction | discriminate].
Qed.

Lemma tl_split_space (s : string) : tl (split_space s) = [] <-> has_space s = false.
Proof.
  induction s as [| c s IH]; simpl; [tauto|].
  destruct (Ascii.eqb c " "%char); simpl.
  - split; [|discriminate]. intro H. exfalso. exact (split_space_nonempty s H).
  - rewrite <- IH. destruct (split_space s) as [| w ws]; simpl; [tauto | tauto].
Qed.

(** The [mailbox] handler acts only on a line without a space: then it
    reports the unread count and pushes the mailbox shell; any space (an
    argument, or a trailing space) makes it do nothing, and it never
    touches the mails. *)
Theorem mailbox_func_args (command : string) (s : state (W:=Mailbox.mails))
  (m : Mailbox.mails) :
  (has_space command = false ->
   exec (Mailbox.mailbox_func command) s m =
     (mkState "mailbox > " (shellStack s ++ [mkFrame (availableCommands s) (prompt s)])
        (output s ++ [Mailbox.summary (List.length (Mailbox.unread m))])
        (input s) false Mailbox.mailbox_table, m, None)) /\
  (has_space command = true -> exec (Mailbox.mailbox_func command) s m = (s, m, None)).
Proof.
  unfold Mailbox.mailbox_func. split; intro H; simpl.
  - apply tl_split_space in H. rewrite H. reflexivity.
  - destruct (tl (split_space command)) as [| a l] eqn:E.
    + apply tl_split_space in E. congruence.
    + reflexivity.
Qed.

(** One [next] command in the mailbox shell keeps the mailbox shell
    active and moves the first unread mail, if any, to the read list. *)
Lemma runCommand_next_step (e : engine (W:=Mailbox.mails)) :
  availableCommands (st e) = Mailbox.mailbox_table ->
  availableCommands (st (after (runCommand e "next"))) = Mailbox.mailbox_table /\
  world (after (runCommand e "next")) =
    match Mailbox.unread (world e) with
    | [] => world e
    | cur :: rest => Mailbox.mkMails rest (Mailbox.read (world e) ++ [cur])
    end.
Proof.
  intro H. destruct e as [s [u rd]]. simpl in H |- *.
  destruct u as [| cur rest];
    (erewrite runCommand_dispatch_eq;
      [ | not_token | not_token | simpl; rewrite H; reflexivity | reflexivity ]);
    simpl; split; auto.
Qed.

(** Queue semantics of [next]: [k] successive [next] commands in the
    mailbox shell move the first [k] unread mails, in order, to the end of
    the read list and leave the others unread; further [next]s change
    nothing. *)
Theorem next_times_queue (k : nat) (e : engine (W:=Mailbox.mails)) :
  availableCommands (st e) = Mailbox.mailbox_table ->
  Mailbox.read (world (next_times k e)) =
    (Mailbox.read (world e) ++ firstn k (Mailbox.unread (world e)))%list /\
  Mailbox.unread (world (next_times k e)) = skipn k (Mailbox.unread (world e)).
Proof.
  revert e. induction k as [| k IH]; intros e H.
  - simpl. rewrite app_nil_r. split; reflexivity.
  - simpl. destruct (runCommand_next_step e H) as [Ha Hw].
    destruct (IH _ Ha) as [H1 H2]. rewrite H1, H2, Hw.
    destruct (world e) as [[| cur rest] rd]; simpl.
    + destruct k; simpl; split; reflexivity.
    + rewrite <- app_assoc. split; reflexivity.
Qed.

Lemma last_frame_snoc {W} (st0 : list (frame (W:=W))) f :
  last_frame (st0 ++ [f]) = Some f.
Proof. unfold last_frame. rewrite rev_app_distr. reflexivity. Qed.

(** Entering the mailbox and quitting it restores the prompt, the active
    table and the shell stack, leaves the mails alone and re-enables
    input; the transcript gains the two echoes and the unread summary. *)
Theorem mailbox_quit_restores (e : engine (W:=Mailbox.mails)) :
  lookup "mailbox" (availableCommands (st e)) = Some Mailbox.mailbox ->
  let e2 := after (runCommand (after (runCommand e "mailbox")) "quit") in
  prompt (st e2) = prompt (st e) /\
  availableCommands (st e2) = availableCommands (st e) /\
  shellStack (st e2) = shellStack (st e) /\
  world e2 = world e /\
  inputDisabled (st e2) = false /\
  output (st e2) =
    (output (st e) ++
     [(prompt (st e) ++ "mailbox")%string;
      Mailbox.summary (List.length (Mailbox.unread (world e)));
      "mailbox > quit"])%list.
Proof.
  intro H. destruct e as [s w]. simpl in H |- *.
  rewrite (runCommand_dispatch_eq (mkEngine s w) "mailbox" Mailbox.mailbox_func
             "opens the mailbox" w
             (mkState "mailbox > "
                (shellStack s ++ [mkFrame (availableCommands s) (prompt s)])
                ((output s ++ [(prompt s ++ "mailbox")%string]) ++
                 [Mailbox.summary (List.length (Mailbox.unread w))])
                (input s) false Mailbox.mailbox_table));
    [ | not_token | not_token | exact H | reflexivity ].
  simpl.
  rewrite (runCommand_dispatch_eq _ "quit" Mailbox.quit_func "quit the mailbox" w
             (mkState (prompt s) (shellStack s)
                (((output s ++ [(prompt s ++ "mailbox")%string]) ++
                  [Mailbox.summary (List.length (Mailbox.unread w))]) ++ ["mailbox > quit"])
                (input s) false (availableCommands s)));
    [ | not_token | not_token | reflexivity | ].
  - simpl. repeat split. rewrite <- !app_assoc. reflexivity.
  - simpl. rewrite last_frame_snoc, removelast_last. reflexivity.
Qed.

(** * The combined store (src/store/store.js)

    [combineReducers({terminal, gameState})]: every action goes to the
    [terminal] reducer of src/gamestate/terminal.js (the slice the
    Terminal container renders) and to the [gameState] reducer modelled
    above (the slice the engine reads). *)

Module Store.

Record tstate : Type := mkT {
  toutput : list string;
  tinput : string;
  tinputValue : option string;
  tinputDisabled : bool
}.

(** Initial value of the [terminal] reducer's [state] parameter;
    [inputValue] is absent until the first [INPUT_ENTERED]. *)
Definition terminal_initial : tstate := mkT ["there is no output"] "" None false.

Section StoreSec.

Context {W : Type}.

(** The reducer [terminal] of src/gamestate/terminal.js: the echo uses the
    fixed prompt ['> ']; shell actions fall to the default case. *)
Definition terminal_js (s : tstate) (a : action (W:=W)) : tstate :=
  match a with
  | INPUT_ENTERED v =>
      mkT (toutput s ++ [("> " ++ v)%string])%list (tinput s) (Some "") true
  | ADD_OUTPUT v ri => mkT (toutput s ++ [v])%list (tinput s) (tinputValue s) (negb ri)
  | RETURN_INPUT => mkT (toutput s) (tinput s) (tinputValue s) false
  | _ => s
  end.

Record root : Type := mkRoot { rterminal : tstate; rgameState : state (W:=W) }.

Definition root_initial : root := mkRoot terminal_initial initial_state.

(** The combined reducer; a reducer that throws makes the dispatch
    throw. *)
Definition root_reducer (r : root) (a : action (W:=W)) : result root :=
  match terminal (rgameState r) a with
  | Ok g => Ok (mkRoot (terminal_js (rterminal r) a) g)
  | Err x => Err x
  end.

Fixpoint store_dispatch_all (r : root) (acts : list (action (W:=W))) : root * option string :=
  match acts with
  | [] => (r, None)
  | a :: acts' =>
      match root_reducer r a with
      | Ok r' => store_dispatch_all r' acts'
      | Err x => (r, Some x)
      end
  end.

(** A handler body run against the combined store. *)
Fixpoint exec_store (h : handler (W:=W)) (r : root) (w : W) : root * W * option string :=
  match h with
  | HReturn => (r, w, None)
  | HRead k => exec_store (k w) r w
  | HUpdate f k => exec_store k r (f w)
  | HCall c k =>
      match root_reducer r (call_action c) with
      | Ok r' => exec_store k r' w
      | Err x => (r, w, Some x)
      end
  | HThrow x => (r, w, Some x)
  | HTry body catch k =>
      match exec_store body r w with
      | (r1, w1, None) => exec_store k r1 w1
      | (r1, w1, Some x) =>
          match exec_store (catch x) r1 w1 with
          | (r2, w2, None) => exec_store k r2 w2
          | res => res
          end
      end
  end.

Record store_run : Type := mkSRun {
  safter : root;
  sworld : W;
  spending : list task;
  sthrown : option string
}.

(** [commandEngine.runCommand(fullCommand)] dispatching to the combined
    store; [availableCommands] is read from the [gameState] slice. *)
Definition runCommand_store (r : root) (w : W) (fullCommand : string) : store_run :=
  let command := first_token fullCommand in
  match store_dispatch_all r [inputEntered fullCommand] with
  | (r1, Some x) => mkSRun r1 w [] (Some x)
  | (r1, None) =>
      let availableCommands := availableCommands (rgameState r1) in
      if String.eqb command "" then
        let (r2, x) := store_dispatch_all r1 [returnInput] in
        mkSRun r2 w [] x
      else if String.eqb command "help" then
        let (r2, x) := store_dispatch_all r1 (map call_action (showHelp availableCommands)) in
        mkSRun r2 w [] x
      else match lookup command availableCommands with
        | Some (Entry f _) =>
            match exec_store (f fullCommand) r1 w with
            | (r2, w', None) => mkSRun r2 w' [TimeoutUndefined 1] None
            | (r2, w', Some x) => mkSRun r2 w' [] (Some x)
            end
        | Some (ArrayLength _) => mkSRun r1 w [] (Some err_bind)
        | None =>
            let (r2, x) := store_dispatch_all r1 [call_action (CSend "bad command" None)] in
            mkSRun r2 w [] x
        end
  end.

(** The [gameState] part of a store run. *)
Definition game_part (sr : store_run) : run_result (W:=W) :=
  mkRun (mkEngine (rgameState (safter sr)) (sworld sr)) (spending sr) (sthrown sr).

Definition is_shell_call (c : call (W:=W)) : bool :=
  match c with CSend _ _ => false | _ => true end.

(** Every call the handler can make is a [pushShell] or a [popShell]. *)
Fixpoint shell_only (h : handler (W:=W)) : Prop :=
  match h with
  | HReturn | HThrow _ => True
  | HRead k => forall w, shell_only (k w)
  | HUpdate _ k => shell_only k
  | HCall c k => is_shell_call c = true /\ shell_only k
  | HTry body catch k => shell_only body /\ (forall x, shell_only (catch x)) /\ shell_only k
  end.

End StoreSec.

End Store.

Section StoreProps.

Context {W : Type}.

Lemma store_dispatch_proj (acts : list (action (W:=W))) :
  forall r r' x, Store.store_dispatch_all r acts = (r', x) ->
  dispatch_all (Store.rgameState r) acts = (Store.rgameState r', x).
Proof.
  induction acts as [| a acts IH]; intros r r' x H; simpl in H |- *.
  - inversion H. reflexivity.
  - unfold Store.root_reducer in H.
    destruct (terminal (Store.rgameState r) a) as [g | y] eqn:E.
    + apply IH in H. exact H.
    + inversion H. reflexivity.
Qed.

Lemma store_echo (r : Store.root (W:=W)) full :
  Store.store_dispatch_all r [inputEntered full] =
  (Store.mkRoot (Store.terminal_js (Store.rterminal r) (inputEntered (W:=W) full))
                (echoed (Store.rgameState r) full), None).
Proof. reflexivity. Qed.

Lemma exec_store_proj (h : handler (W:=W)) :
  forall r w r' w' x, Store.exec_store h r w = (r', w', x) ->
  exec h (Store.rgameState r) w = (Store.rgameState r', w', x).
Proof.
  induction h as [| k IH | g k IH | c k IH | y | body IHb catch IHc k IHk];
    intros r w r' w' x H; simpl in H |- *.
  - inversion H. reflexivity.
  - exact (IH w r w r' w' x H).
  - exact (IH r (g w) r' w' x H).
  - unfold Store.root_reducer in H.
    destruct (terminal (Store.rgameState r) (call_action c)) as [g | y].
    + exact (IH _ w r' w' x H).
    + inversion H. reflexivity.
  - inversion H. reflexivity.
  - destruct (Store.exec_store body r w) as [[r1 w1] [x1 |]] eqn:Eb;
      apply IHb in Eb; rewrite Eb.
    + destruct (Store.exec_store (catch x1) r1 w1) as [[r2 w2] [x2 |]] eqn:Ec;
        apply IHc in Ec; rewrite Ec.
      * inversion H. reflexivity.
      * exact (IHk _ _ _ _ _ H).
    + exact (IHk _ _ _ _ _ H).
Qed.

Ltac proj_branch :=
  match goal with |- context [Store.store_dispatch_all ?r ?acts] =>
    let r2 := fresh "r2" in let x := fresh "x" in let E := fresh "E" in
    destruct (Store.store_dispatch_all r acts) as [r2 x] eqn:E;
    apply store_dispatch_proj in E; cbn [Store.rgameState] in E; rewrite E
  end.

(** The [gameState] slice of the real store evolves exactly as the engine
    model: running a line on the combined store and keeping the
    [gameState] slice gives [runCommand] on that slice (same state, world,
    timers and exception). *)
Theorem store_gameState_slice (r : Store.root (W:=W)) (w : W) (full : string) :
  Store.game_part (Store.runCommand_store r w full) =
  runCommand (mkEngine (Store.rgameState r) w) full.
Proof.
  unfold Store.runCommand_store, runCommand. rewrite store_echo, dispatch_echo.
  cbn [st world Store.rgameState fst snd].
  destruct (String.eqb (first_token full) "").
  { proj_branch. reflexivity. }
  destruct (String.eqb (first_token full) "help").
  { proj_branch. reflexivity. }
  change (availableCommands (echoed (Store.rgameState r) full))
    with (availableCommands (Store.rgameState r)).
  destruct (lookup (first_token full) (availableCommands (Store.rgameState r)))
    as [[f d | n] |].
  - destruct (Store.exec_store (f full) _ w) as [[r2 w'] x] eqn:E.
    apply exec_store_proj in E. cbn [Store.rgameState] in E. rewrite E.
    destruct x; reflexivity.
  - reflexivity.
  - proj_branch. reflexivity.
Qed.

Lemma exec_store_shell_terminal (h : handler (W:=W)) :
  Store.shell_only h -> forall r w,
  Store.rterminal (fst (fst (Store.exec_store h r w))) = Store.rterminal r.
Proof.
  induction h as [| k IH | g k IH | c k IH | y | body IHb catch IHc k IHk];
    simpl; intros Hs r w.
  - reflexivity.
  - exact (IH w (Hs w) r w).
  - exact (IH Hs r (g w)).
  - destruct Hs as [Hc Hk]. unfold Store.root_reducer.
    destruct c as [v d | cmds p |]; [discriminate | |]; simpl.
    + rewrite IH by exact Hk. reflexivity.
    + destruct (last_frame (shellStack (Store.rgameState r))); simpl;
        [rewrite IH by exact Hk|]; reflexivity.
  - reflexivity.
  - destruct Hs as [Hb [Hc Hk]].
    pose proof (IHb Hb r w) as Tb.
    destruct (Store.exec_store body r w) as [[r1 w1] [x1 |]]; simpl in Tb.
    + pose proof (IHc x1 (Hc x1) r1 w1) as Tc.
      destruct (Store.exec_store (catch x1) r1 w1) as [[r2 w2] [x2 |]]; simpl in Tc.
      * simpl. congruence.
      * rewrite IHk by exact Hk. congruence.
    + rewrite IHk by exact Hk. exact Tb.
Qed.

(** A handler that only pushes or pops shells (like the mailbox's [quit])
    leaves the rendered [terminal] slice as the echo left it: input there
    stays disabled, and the only new rendered entry is the echo. *)
Theorem shell_handler_leaves_rendered_input_disabled
  (r : Store.root (W:=W)) (w : W) (full : string) f d :
  first_token full <> "" -> first_token full <> "help" ->
  lookup (first_token full) (availableCommands (Store.rgameState r)) = Some (Entry f d) ->
  Store.shell_only (f full) ->
  Store.tinputDisabled (Store.rterminal (Store.safter (Store.runCommand_store r w full))) = true /\
  Store.toutput (Store.rterminal (Store.safter (Store.runCommand_store r w full))) =
    (Store.toutput (Store.rterminal r) ++ [("> " ++ full)%string])%list.
Proof.
  intros H1 H2 H3 H4.
  unfold Store.runCommand_store. rewrite store_echo. cbn zeta.
  rewrite (first_token_neq_eqb _ _ H1), (first_token_neq_eqb _ _ H2).
  change (availableCommands (Store.rgameState (Store.mkRoot ?t (echoed (Store.rgameState r) full))))
    with (availableCommands (Store.rgameState r)).
  rewrite H3.
  pose proof (exec_store_shell_terminal (f full) H4
    (Store.mkRoot (Store.terminal_js (Store.rterminal r) (inputEntered (W:=W) full))
                  (echoed (Store.rgameState r) full)) w) as HT.
  destruct (Store.exec_store (f full) _ w) as [[r2 w'] x].
  simpl in HT. destruct x; simpl; rewrite HT; split; reflexivity.
Qed.

Lemma terminal_js_prefix (t : Store.tstate) (a : action (W:=W)) :
  exists k, Store.toutput (Store.terminal_js t a) = (Store.toutput t ++ k)%list.
Proof.
  destruct a; simpl; eauto; exists []; rewrite app_nil_r; reflexivity.
Qed.

Lemma store_dispatch_prefix (acts : list (action (W:=W))) :
  forall r, exists k,
  Store.toutput (Store.rterminal (fst (Store.store_dispatch_all r acts))) =
  (Store.toutput (Store.rterminal r) ++ k)%list.
Proof.
  induction acts as [| a acts IH]; intro r.
  - exists []. simpl. rewrite app_nil_r. reflexivity.
  - simpl. unfold Store.root_reducer.
    destruct (terminal (Store.rgameState r) a) as [g | y].
    + destruct (IH (Store.mkRoot (Store.terminal_js (Store.rterminal r) a) g)) as [k Hk].
      destruct (terminal_js_prefix (Store.rterminal r) a) as [k' Hk'].
      rewrite Hk. simpl. rewrite Hk', <- app_assoc. eauto.
    + exists []. rewrite app_nil_r. reflexivity.
Qed.

Lemma exec_store_prefix (h : handler (W:=W)) :
  forall r w, exists k,
  Store.toutput (Store.rterminal (fst (fst (Store.exec_store h r w)))) =
  (Store.toutput (Store.rterminal r) ++ k)%list.
Proof.
  induction h as [| k IH | g k IH | c k IH | y | body IHb catch IHc k IHk];
    simpl; intros r w.
  - exists []. rewrite app_nil_r. reflexivity.
  - exact (IH w r w).
  - exact (IH r (g w)).
  - unfold Store.root_reducer.
    destruct (terminal (Store.rgameState r) (call_action c)) as [g | y].
    + destruct (IH (Store.mkRoot (Store.terminal_js (Store.rterminal r) (call_action c)) g) w)
        as [k1 H1].
      destruct (terminal_js_prefix (Store.rterminal r) (call_action c)) as [k2 H2].
      rewrite H1. simpl. rewrite H2, <- app_assoc. eauto.
    + exists []. rewrite app_nil_r. reflexivity.
  - exists []. rewrite app_nil_r. reflexivity.
  - destruct (IHb r w) as [kb Hb].
    destruct (Store.exec_store body r w) as [[r1 w1] [x1 |]]; simpl in Hb.
    + destruct (IHc x1 r1 w1) as [kc Hc].
      destruct (Store.exec_store (catch x1) r1 w1) as [[r2 w2] [x2 |]]; simpl in Hc.
      * simpl. rewrite Hc, Hb, <- app_assoc. eauto.
      * destruct (IHk r2 w2) as [kk Hk]. rewrite Hk, Hc, Hb, <- !app_assoc. eauto.
    + destruct (IHk r1 w1) as [kk Hk]. rewrite Hk, Hb, <- app_assoc. eauto.
Qed.

(** The rendered transcript echoes every line with the fixed prompt
    ['> '], whatever the active shell prompt, before anything the command
    adds. *)
Theorem rendered_echo_fixed_prompt (r : Store.root (W:=W)) (w : W) (full : string) :
  exists k,
  Store.toutput (Store.rterminal (Store.safter (Store.runCommand_store r w full))) =
  (Store.toutput (Store.rterminal r) ++ ("> " ++ full)%string :: k)%list.
Proof.
  set (r1 := Store.mkRoot (Store.terminal_js (Store.rterminal r) (inputEntered (W:=W) full))
                          (echoed (Store.rgameState r) full)).
  assert (Hext : forall r2 : Store.root (W:=W), (exists k, Store.toutput (Store.rterminal r2) =
                                       (Store.toutput (Store.rterminal r1) ++ k)%list) ->
    exists k, Store.toutput (Store.rterminal r2) =
    (Store.toutput (Store.rterminal r) ++ ("> " ++ full)%string :: k)%list).
  { intros r2 [k Hk]. exists k. rewrite Hk. simpl. rewrite <- app_assoc. reflexivity. }
  assert (Hsub : forall acts, exists k,
    Store.toutput (Store.rterminal (fst (Store.store_dispatch_all r1 acts))) =
    (Store.toutput (Store.rterminal r) ++ ("> " ++ full)%string :: k)%list).
  { intro acts. apply Hext, store_dispatch_prefix. }
  unfold Store.runCommand_store. rewrite store_echo. fold r1. cbn zeta.
  destruct (String.eqb (first_token full) "").
  { specialize (Hsub [returnInput]). destruct (Store.store_dispatch_all r1 _). exact Hsub. }
  destruct (String.eqb (first_token full) "help").
  { specialize (Hsub (map call_action (showHelp (availableCommands (Store.rgameState r1))))).
    destruct (Store.store_dispatch_all r1 _). exact Hsub. }
  destruct (lookup (first_token full) (availableCommands (Store.rgameState r1)))
    as [[f d | n] |].
  - pose proof (Hext _ (exec_store_prefix (f full) r1 w)) as Hx.
    destruct (Store.exec_store (f full) r1 w) as [[r2 w'] [x |]]; exact Hx.
  - apply Hext. exists []. rewrite app_nil_r. reflexivity.
  - specialize (Hsub [call_action (CSend "bad command" None)]).
    destruct (Store.store_dispatch_all r1 _). exact Hsub.
Qed.

End StoreProps.

(** * Witnesses of the further properties *)

Lemma runCommand_empty_command_witness :
  first_token " mailbox" = "" /\
  runCommand Mailbox.started " mailbox" =
  mkRun (mkEngine
           (mkState (prompt (st Mailbox.started)) (shellStack (st Mailbox.started))
              (output (st Mailbox.started) ++
               [(prompt (st Mailbox.started) ++ " mailbox")%string])%list
              (input (st Mailbox.started)) false (availableCommands (st Mailbox.started)))
           (world Mailbox.started))
        [] None.
Proof. split; [reflexivity|]. apply runCommand_empty_command. reflexivity. Defined.

(** A root table whose [quit] pops the shell and then clears the unread
    mails. *)
Definition pop_then_clear (_ : string) : handler (W:=Mailbox.mails) :=
  HCall CPop (HUpdate (fun m => Mailbox.mkMails [] (Mailbox.read m)) HReturn).

Definition root_quit : engine (W:=Mailbox.mails) :=
  mkEngine (mkState "> " [] [] "" false [("quit", Entry pop_then_clear "quit")])
           Mailbox.chapter1_mails.

Lemma runCommand_pop_on_empty_throws_witness :
  shellStack (st root_quit) = [] /\
  first_token "quit" <> "" /\ first_token "quit" <> "help" /\
  lookup (first_token "quit") (availableCommands (st root_quit)) =
    Some (Entry pop_then_clear "quit") /\
  pop_then_clear "quit" =
    HCall CPop (HUpdate (fun m => Mailbox.mkMails [] (Mailbox.read m)) HReturn) /\
  runCommand root_quit "quit" =
    mkRun (mkEngine (echoed (st root_quit) "quit") (world root_quit)) []
          (Some err_pop_empty).
Proof.
  split; [reflexivity|]. split; [not_token|]. split; [not_token|].
  split; [reflexivity|]. split; [reflexivity|].
  apply (runCommand_pop_on_empty_throws root_quit "quit" pop_then_clear "quit"
           (HUpdate (fun m => Mailbox.mkMails [] (Mailbox.read m)) HReturn));
    [reflexivity | not_token | not_token | reflexivity | reflexivity].
Defined.

Lemma next_times_queue_witness :
  availableCommands (st in_mailbox) = Mailbox.mailbox_table /\
  (Mailbox.read (world (next_times 3 in_mailbox)) =
     (Mailbox.read (world in_mailbox) ++ firstn 3 (Mailbox.unread (world in_mailbox)))%list /\
   Mailbox.unread (world (next_times 3 in_mailbox)) =
     skipn 3 (Mailbox.unread (world in_mailbox))).
Proof. split; [reflexivity|]. apply next_times_queue. reflexivity. Defined.

Lemma mailbox_quit_restores_witness :
  lookup "mailbox" (availableCommands (st Mailbox.started)) = Some Mailbox.mailbox /\
  (let e2 := after (runCommand (after (runCommand Mailbox.started "mailbox")) "quit") in
   prompt (st e2) = prompt (st Mailbox.started) /\
   availableCommands (st e2) = availableCommands (st Mailbox.started) /\
   shellStack (st e2) = shellStack (st Mailbox.started) /\
   world e2 = world Mailbox.started /\
   inputDisabled (st e2) = false /\
   output (st e2) =
     (output (st Mailbox.started) ++
      [(prompt (st Mailbox.started) ++ "mailbox")%string;
       Mailbox.summary (List.length (Mailbox.unread (world Mailbox.started)));
       "mailbox > quit"])%list).
Proof. split; [reflexivity|]. apply mailbox_quit_restores. reflexivity. Defined.

(** The combined store after [commandEngine.start(chapter1)], and after
    entering the mailbox. *)
Definition store_started : Store.root (W:=Mailbox.mails) :=
  fst (Store.store_dispatch_all Store.root_initial
         [pushShell Mailbox.rootCommands "> "; sendToOutput Mailbox.initialOutput None]).

Definition store_in_mailbox : Store.root (W:=Mailbox.mails) :=
  Store.safter (Store.runCommand_store store_started Mailbox.chapter1_mails "mailbox").

Lemma shell_handler_leaves_rendered_input_disabled_witness :
  first_token "quit" <> "" /\ first_token "quit" <> "help" /\
  lookup (first_token "quit") (availableCommands (Store.rgameState store_in_mailbox)) =
    Some (Entry Mailbox.quit_func "quit the mailbox") /\
  Store.shell_only (Mailbox.quit_func "quit") /\
  (Store.tinputDisabled
     (Store.rterminal (Store.safter
        (Store.runCommand_store store_in_mailbox Mailbox.chapter1_mails "quit"))) = true /\
   Store.toutput
     (Store.rterminal (Store.safter
        (Store.runCommand_store store_in_mailbox Mailbox.chapter1_mails "quit"))) =
   (Store.toutput (Store.rterminal store_in_mailbox) ++ [("> " ++ "quit")%string])%list).
Proof.
  split; [not_token|]. split; [not_token|]. split; [reflexivity|].
  split; [split; [reflexivity | exact I]|].
  apply (shell_handler_leaves_rendered_input_disabled store_in_mailbox
           Mailbox.chapter1_mails "quit" Mailbox.quit_func "quit the mailbox");
    [not_token | not_token | reflexivity | split; [reflexivity | exact I]].
Defined.
